(** * burst_search: block windowing, frequency selection and time scrunching

    A shallow embedding of [burst_search/datasource.py] (the abstract
    [DataSource] class) and [burst_search/search.py] (the [Trigger] record
    and the [basic] search wrapper), with the properties the specification
    states about them.

    Conventions.
    - Python floats and [numpy] arrays of [dtype=float] are binary64
      numbers: Rocq's primitive floats, with the same operations.
    - Python integers are [Z]; [%] and [//] are [Z.modulo] and [Z.div]
      (both take the sign of the divisor, as in Python).
    - A [numpy] array is a shape and a flat row-major (C-contiguous)
      buffer, as [numpy] allocates it; a row slice of such an array is one
      again, so the in-place reshape of [get_next_block] is accepted
      whenever the sizes agree. Sizes are not bounded by the machine index
      type.
    - An exception is a value of [exn]; a method of the data source is a
      function from the state of the source to a result and a new state.
    - [np.mean] over one run of samples and the cast back to the array's
      dtype belong to [numpy]; they are the two operations of [DType]. *)

From Stdlib Require Import ZArith String Floats.
From Stdlib Require Import QArith Ascii DecimalString DecimalZ DecimalPos.
From stdpp Require Import base list.

Set Warnings "-inexact-float".

Local Open Scope Z_scope.
Local Open Scope list_scope.

(** ** Python: exceptions, results, integers and floats *)

Module Py.

(** The exceptions met in this code. The specification calls
    [StopIteration] end of stream, the [NotImplementedError] of
    [get_next_block] an indivisible scrunch, and the [IndexError] of an
    empty passband an empty band. [BackendError] stands for whatever else a
    source may raise. *)
Inductive exn : Type :=
| StopIteration
| IndexError
| ZeroDivisionError
| ValueError
| NotImplementedError (msg : string)
| BackendError (msg : string).

Inductive result (A : Type) : Type :=
| Ok (a : A)
| Raise (e : exn).
Arguments Ok {A} a.
Arguments Raise {A} e.

(** A computation on a source of state [S]: it returns or raises, and
    leaves the source in a new state either way. *)
Definition M (S A : Type) : Type := S -> result A * S.

Definition ret {S A} (a : A) : M S A := fun s => (Ok a, s).

Definition raise {S A} (e : exn) : M S A := fun s => (Raise e, s).

Definition bind {S A B} (m : M S A) (k : A -> M S B) : M S B :=
  fun s =>
    match m s with
    | (Ok a, s') => k a s'
    | (Raise e, s') => (Raise e, s')
    end.

(** A call that does not touch the source. *)
Definition lift {S A} (r : result A) : M S A := fun s => (r, s).

(** [float(z)]: the nearest binary64 number, ties to even. *)
Definition float_of_int (z : Z) : float :=
  SF2Prim (binary_normalize prec emax z 0 false).

(** [x > y] on floats. *)
Definition gt (x y : float) : bool := PrimFloat.ltb y x.

(** ["%d" % z] *)
Definition pct_d (z : Z) : string := NilZero.string_of_int (Z.to_int z).

(** The character [c] does not occur in [s]. *)
Fixpoint lacks (c : ascii) (s : string) : bool :=
  match s with
  | EmptyString => true
  | String a s' => negb (Ascii.eqb a c) && lacks c s'
  end.

(** [slice(start, stop)]; [None] is an omitted bound. *)
Record pyslice : Type := { start : option nat; stop : option nat }.

(** The bounds of a slice on a sequence of length [n], clamped as Python
    clamps them. *)
Definition slice_bounds (s : pyslice) (n : nat) : nat * nat :=
  (Nat.min (default 0%nat (start s)) n, Nat.min (default n (stop s)) n).

Definition getslice {A} (l : list A) (s : pyslice) : list A :=
  let '(lo, hi) := slice_bounds s (length l) in
  take (hi - lo) (drop lo l).

End Py.

Import Py.

Declare Scope py_scope.
Delimit Scope py_scope with py.
Notation "'let*' x ':=' m 'in' k" := (bind m (fun x => k))
  (at level 10, x name, m at level 100, k at level 200) : py_scope.
Notation "'let*' ' pat ':=' m 'in' k" :=
  (bind m (fun x => match x with pat => k end))
  (at level 10, pat pattern, m at level 100, k at level 200) : py_scope.

(** ** numpy: arrays, [arange], [nonzero], slicing, reshaping, [mean] *)

Module Np.

(** The numeric representation of an array: [np.mean] of a run of
    samples in the accumulator type, and the cast back. *)
Class DType (T : Type) : Type := {
  acc : Type;
  np_mean : list T -> acc;
  astype : acc -> T
}.

Record ndarray (T : Type) : Type := { shape : list nat; buf : list T }.
Arguments shape {T} _.
Arguments buf {T} _.

Definition product (dims : list nat) : nat := foldr Nat.mul 1%nat dims.

(** A well-formed array of two axes: [nrow] rows of [ncol] samples. *)
Definition wf2 {T} (a : ndarray T) (nrow ncol : nat) : Prop :=
  shape a = [nrow; ncol] /\ length (buf a) = (nrow * ncol)%nat.

(** [a[c, j]] of an array of two axes. *)
Definition get2 {T} (a : ndarray T) (c j : nat) : option T :=
  match shape a with
  | [nrow; ncol] =>
      if bool_decide (c < nrow /\ j < ncol)%nat
      then buf a !! (c * ncol + j)%nat else None
  | _ => None
  end.

(** [np.arange(n, dtype=float)] *)
Definition arange (n : nat) : list float :=
  map (fun i => float_of_int (Z.of_nat i)) (seq 0 n).

(** [np.nonzero(mask)[0]]: the indices of the true entries, ascending. *)
Fixpoint nonzero_from (i : nat) (mask : list bool) : list nat :=
  match mask with
  | [] => []
  | b :: mask' =>
      if b then i :: nonzero_from (S i) mask' else nonzero_from (S i) mask'
  end.

Definition nonzero (mask : list bool) : list nat := nonzero_from 0 mask.

(** [idx[i]] and [idx[-1]] of a one-axis index array. *)
Definition item {A} (l : list A) (i : nat) : result A :=
  match l !! i with Some x => Ok x | None => Raise IndexError end.

Definition item_last {A} (l : list A) : result A :=
  match last l with Some x => Ok x | None => Raise IndexError end.

(** [a[s]]: a slice along the first axis. *)
Definition getitem {T} (a : ndarray T) (s : pyslice) : result (ndarray T) :=
  match shape a with
  | [] => Raise IndexError
  | n :: rest =>
      let '(lo, hi) := slice_bounds s n in
      let w := product rest in
      Ok {| shape := (hi - lo)%nat :: rest;
            buf := take ((hi - lo) * w) (drop (lo * w) (buf a)) |}
  end.

(** [a.shape[i]] *)
Definition shape_at {T} (a : ndarray T) (i : nat) : result Z :=
  match shape a !! i with
  | Some d => Ok (Z.of_nat d)
  | None => Raise IndexError
  end.

(** [a.shape = dims]: the same buffer under a new shape. A size that
    differs from the buffer's is refused, and so is a negative dimension:
    the [-1] that [numpy] completes on request cannot be completed in any
    shape [get_next_block] builds. *)
Definition set_shape {T} (a : ndarray T) (dims : list Z)
  : result (ndarray T) :=
  if forallb (fun d => 0 <=? d) dims
     && (Z.of_nat (length (buf a)) =? foldr Z.mul 1 dims)
  then Ok {| shape := map Z.to_nat dims; buf := buf a |}
  else Raise ValueError.

(** The [n] consecutive runs of [d] samples of a buffer. *)
Definition runs {T} (d n : nat) (b : list T) : list (list T) :=
  map (fun r => take d (drop (r * d) b)) (seq 0 n).

(** [np.mean(a, -1)]: the last axis is reduced, run by run. *)
Definition mean {T} `{DType T} (a : ndarray T) : result (ndarray acc) :=
  match last (shape a) with
  | None => Raise ValueError
  | Some d =>
      let outer := removelast (shape a) in
      Ok {| shape := outer;
            buf := map np_mean (runs d (product outer) (buf a)) |}
  end.

(** [m.astype(dtype)] *)
Definition astype_array {T} `{DType T} (m : ndarray acc) : ndarray T :=
  {| shape := shape m; buf := map astype (buf m) |}.

End Np.

Import Np.

(** ** burst_search/datasource.py *)

Module DataSource.

(** The methods a subclass must implement; [S] is the state of the
    underlying source and [T] the type of a sample. *)
Class Source (T S : Type) : Type := {
  get_next_block_native : M S (float * ndarray T);
  nblocks_left : S -> nat;
  nblocks_fetched : S -> nat
}.

(** The attributes set by [__init__] and by the subclass. *)
Record DataSource : Type := {
  _block : option float;
  _overlap : option float;
  _scrunch : Z;
  _passband : option (float * float);
  _delta_t_native : float;
  _delta_f : float;
  _nfreq : nat;
  _freq0 : float;
  _mjd : Z;
  _start_time : float
}.

Definition time_block (self : DataSource) : option float := _block self.

Definition overlap (self : DataSource) : option float := _overlap self.

Definition delta_t (self : DataSource) : float :=
  (_delta_t_native self * float_of_int (_scrunch self))%float.

Definition delta_f (self : DataSource) : float := _delta_f self.

Definition mjd (self : DataSource) : Z := _mjd self.

Definition start_time (self : DataSource) : float := _start_time self.

(** The channel frequencies and the mask of those inside a passband. *)
Definition freq_native (self : DataSource) : list float :=
  map (fun x => (x + _freq0 self)%float)
      (map (fun x => (x * delta_f self)%float) (arange (_nfreq self))).

Definition inband_mask (pb : float * float) (fs : list float) : list bool :=
  map (fun f => gt f (fst pb) && PrimFloat.ltb f (snd pb)) fs.

Definition _freq_native_and_slice (self : DataSource)
  : result (list float * pyslice) :=
  let freq_native := freq_native self in
  match _passband self with
  | Some pb =>
      let inband := nonzero (inband_mask pb freq_native) in
      match item inband 0, item_last inband with
      | Ok first, Ok last =>
          Ok (freq_native,
              {| start := Some first; stop := Some (last + 1)%nat |})
      | Raise e, _ => Raise e
      | _, Raise e => Raise e
      end
  | None => Ok (freq_native, {| start := None; stop := None |})
  end.

Definition freq (self : DataSource) : result (list float) :=
  match _freq_native_and_slice self with
  | Ok (freq, f_slice) => Ok (getslice freq f_slice)
  | Raise e => Raise e
  end.

Definition freq0 (self : DataSource) : result float :=
  match freq self with
  | Ok f => item f 0
  | Raise e => Raise e
  end.

Definition nfreq (self : DataSource) : result nat :=
  match freq self with
  | Ok f => Ok (length f)
  | Raise e => Raise e
  end.

Definition scrunch_msg (scrunch ntime_native : Z) : string :=
  ("Scrunch factor (" ++ pct_d scrunch
     ++ ") must divide native time block size ("
     ++ pct_d ntime_native ++ ")")%string.

Section GetNextBlock.

Context {T S : Type} `{DType T} `{Source T S}.

Local Open Scope py_scope.

Definition get_next_block (self : DataSource) : M S (float * ndarray T) :=
  let scrunch := _scrunch self in
  let* '(t0, data_native) := get_next_block_native in
  let* '(_, f_slice) := lift (_freq_native_and_slice self) in
  let* data_native := lift (getitem data_native f_slice) in
  if scrunch =? 1 then ret (t0, data_native) else
  let* ntime_native := lift (shape_at data_native 1) in
  (* [%] by zero raises *)
  if scrunch =? 0 then raise ZeroDivisionError else
  if negb (ntime_native mod scrunch =? 0) then
    raise (NotImplementedError (scrunch_msg scrunch ntime_native))
  else
  let shape :=
    map Z.of_nat (take 1 (shape data_native))
      ++ [ntime_native / scrunch; scrunch] in
  let* data_native := lift (set_shape data_native shape) in
  let t0 :=
    (t0 + delta_t self * (1 - 1 / float_of_int scrunch) / 2)%float in
  let* m := lift (mean data_native) in
  ret (t0, astype_array m).

End GetNextBlock.

(** The attributes [__init__] leaves to the subclass. *)
Record Geometry : Type := {
  geo_delta_t_native : float;
  geo_delta_f : float;
  geo_nfreq : nat;
  geo_freq0 : float;
  geo_mjd : Z;
  geo_start_time : float
}.

(** [__init__(self, source, block=None, overlap=None, scrunch=1,
    passband=None)], followed by the subclass filling in the geometry;
    [None] for [scrunch] is an omitted argument. The source itself is the
    state the methods run on. *)
Definition __init__ (block overlap : option float) (scrunch : option Z)
    (passband : option (float * float)) (geo : Geometry) : DataSource :=
  {| _block := block;
     _overlap := overlap;
     _scrunch := default 1 scrunch;
     _passband := passband;
     _delta_t_native := geo_delta_t_native geo;
     _delta_f := geo_delta_f geo;
     _nfreq := geo_nfreq geo;
     _freq0 := geo_freq0 geo;
     _mjd := geo_mjd geo;
     _start_time := geo_start_time geo |}.

End DataSource.

(** ** burst_search/search.py *)

Module Search.

Section Trigger.

(** [D] is the type of the object handed to the search; [basic] keeps
    a reference to it in every trigger. *)
Context {D : Type}.

Record Trigger : Type := {
  _data : D;
  _dm_ind : Z;
  _time_ind : Z;
  _snr : float
}.

(** [Trigger(data, centre, snr=0.)] *)
Definition new (data : D) (centre : Z * Z) (snr : option float) : Trigger :=
  {| _data := data;
     _dm_ind := fst centre;
     _time_ind := snd centre;
     _snr := default 0%float snr |}.

Definition data (self : Trigger) : D := _data self.

Definition centre (self : Trigger) : Z * Z :=
  (_dm_ind self, _time_ind self).

(** The peak finder of the [_search] extension module: it returns
    [(snr, sample, duration)]. *)
Variable sievers_find_peak : D -> float * (Z * Z) * Z.

(** [basic(data, snr_threshold=5.)]; [None] is an omitted threshold. *)
Definition basic (data : D) (snr_threshold : option float) : list Trigger :=
  let snr_threshold := default 5%float snr_threshold in
  let triggers := [] in
  let '(snr, sample, duration) := sievers_find_peak data in
  if gt snr snr_threshold
  then triggers ++ [new data sample (Some snr)]
  else triggers.

End Trigger.

Arguments Trigger D : clear implicits.

Section PlotDm.

Context {D : Type}.

(** [data.dm_data.shape] as [(shape[0], shape[1])]. *)
Variable dm_data_shape : D -> Z * Z.

(** What [plot_dm] hands to [plt.imshow]: the row and column bounds of the
    slice of [dm_data], and the [extent] list. *)
Record imshow_args : Type := {
  rows : Z * Z;
  cols : Z * Z;
  extent : list Z
}.

Definition plot_dm (self : Trigger D) : imshow_args :=
  let '(di, ti) := centre self in
  let tside := 500 in
  let dside := 300 in
  let start_ti := Z.max 0 (ti - tside) in
  let end_ti := Z.min (snd (dm_data_shape (data self))) (ti + tside) in
  let start_di := Z.max 0 (di - dside) in
  let end_di := Z.min (fst (dm_data_shape (data self))) (di + dside) in
  {| rows := (start_di, end_di);
     cols := (start_ti, end_ti);
     extent := [start_ti; end_ti; start_di; end_di] |}.

End PlotDm.

End Search.

(** ** Instances used in the examples *)

Module Examples.

Import DataSource.

Definition Zsum (l : list Z) : Z := foldr Z.add 0 l.

(** An integer dtype: the mean of a run is taken exactly and the cast back
    truncates towards zero. [numpy] takes the mean in binary64, with the
    same outcome as long as the sums stay far below [2^53]. *)
#[export] Instance int_dtype : DType Z := {
  acc := Q;
  np_mean l := Qmake (Zsum l) (Pos.of_nat (length l));
  astype q := Z.quot (Qnum q) (Zpos (Qden q))
}.

(** A source that holds its blocks in a list and counts the fetches. *)
Record ListSource (T : Type) : Type := {
  pending : list (float * ndarray T);
  fetched : nat
}.
Arguments pending {T} _.
Arguments fetched {T} _.

#[export] Instance list_source (T : Type) : Source T (ListSource T) := {
  get_next_block_native s :=
    match pending s with
    | [] => (Raise StopIteration, s)
    | b :: rest => (Ok b, {| pending := rest; fetched := S (fetched s) |})
    end;
  nblocks_left s := length (pending s);
  nblocks_fetched s := fetched s
}.

Definition config (scrunch : Z) (passband : option (float * float))
  : DataSource :=
  {| _block := None; _overlap := None; _scrunch := scrunch;
     _passband := passband; _delta_t_native := 0.001%float;
     _delta_f := 1%float; _nfreq := 4; _freq0 := 0%float;
     _mjd := 55000; _start_time := 0%float |}.

(** Four channels of eight samples: channel [c] holds [10*c + j]. *)
Definition block48 : ndarray Z :=
  {| shape := [4; 8]%nat;
     buf := [ 0;  1;  2;  3;  4;  5;  6;  7;
             10; 11; 12; 13; 14; 15; 16; 17;
             20; 21; 22; 23; 24; 25; 26; 27;
             30; 31; 32; 33; 34; 35; 36; 37] |}.

Definition source48 : ListSource Z :=
  {| pending := [(2%float, block48)]; fetched := 0 |}.

Definition fetched48 : ListSource Z := {| pending := []; fetched := 1 |}.

Definition exhausted : ListSource Z := {| pending := []; fetched := 0 |}.

Definition geometry4 : Geometry :=
  {| geo_delta_t_native := 0.001%float; geo_delta_f := 1%float;
     geo_nfreq := 4; geo_freq0 := 0%float; geo_mjd := 55000;
     geo_start_time := 0%float |}.

(** A peak finder that reports one scripted candidate. *)
Definition scripted_peak (_ : ndarray Z) : float * (Z * Z) * Z :=
  (7.2%float, (120, 4050), 3).

End Examples.

(** ** Vocabulary of the specification *)

Module Spec.

Import DataSource.

(** Channel [i] exists and its frequency lies strictly inside [pb]. *)
Definition qualifies (self : DataSource) (pb : float * float) (i : nat)
  : bool :=
  match freq_native self !! i with
  | Some f => gt f (fst pb) && PrimFloat.ltb f (snd pb)
  | None => false
  end.

(** The channel indices a selection keeps on an axis of [n] channels:
    [range(n)[sel]]. *)
Definition indices (sel : pyslice) (n : nat) : list nat :=
  getslice (seq 0 n) sel.


Section SliceOnly.

Context {T S : Type} `{Source T S}.

(** What the specification promises for a scrunch factor of one: the
    native block with the resolved selection applied to its channels,
    and the native [t0]. *)
Definition slice_only (self : DataSource) (native : float * ndarray T)
  : result (float * ndarray T) :=
  match _freq_native_and_slice self with
  | Ok (_, selection) =>
      match getitem (snd native) selection with
      | Ok sliced => Ok (fst native, sliced)
      | Raise e => Raise e
      end
  | Raise e => Raise e
  end.

(** From state [s] the source hands out a well-formed block of [nf]
    channels and [nt] samples with first-sample time [t0], leaving state
    [s'], and the frequency axis of [self] resolves to the selection [sl]. *)
Definition delivers (self : DataSource) (s : S) (t0 : float)
    (blk : ndarray T) (nf nt : nat) (sl : pyslice) (s' : S) : Prop :=
  get_next_block_native s = (Ok (t0, blk), s') /\
  wf2 blk nf nt /\
  exists fr, _freq_native_and_slice self = Ok (fr, sl).

Definition get_next_block_sliced_only (self : DataSource)
  : M S (float * ndarray T) :=
  fun s =>
    match get_next_block_native s with
    | (Ok native, s') => (slice_only self native, s')
    | (Raise e, s') => (Raise e, s')
    end.

End SliceOnly.

End Spec.

Import DataSource Search Spec Examples.

(** * Properties *)

(** ** Lists and arrays *)

Lemma lookup_map {A B : Type} (f : A -> B) (l : list A) (i : nat) :
  map f l !! i = f <$> (l !! i).
Proof. exact (list_lookup_fmap f l i). Qed.

Section ListFacts.

Context {A : Type}.

Lemma lookup_runs (d n r : nat) (b : list A) :
  (r < n)%nat -> runs d n b !! r = Some (take d (drop (r * d) b)).
Proof.
  intros Hr. unfold runs.
  rewrite lookup_map, lookup_seq_lt by exact Hr. reflexivity.
Qed.

Lemma length_runs (d n : nat) (b : list A) : length (runs d n b) = n.
Proof. unfold runs. rewrite length_map. apply length_seq. Qed.

Lemma length_run (d off : nat) (b : list A) :
  (off + d <= length b)%nat -> length (take d (drop off b)) = d.
Proof. intros Hb. rewrite length_take, length_drop. lia. Qed.

Lemma lookup_run (d off i : nat) (b : list A) :
  (i < d)%nat -> take d (drop off b) !! i = b !! (off + i)%nat.
Proof. intros Hi. rewrite lookup_take_lt by exact Hi. apply lookup_drop. Qed.

End ListFacts.

Section ArrayFacts.

Context {T : Type}.

Lemma get2_wf2 (a : ndarray T) (nrow ncol c j : nat) :
  wf2 a nrow ncol -> (c < nrow)%nat -> (j < ncol)%nat ->
  get2 a c j = buf a !! (c * ncol + j)%nat.
Proof.
  intros [Hs _] Hc Hj. unfold get2. rewrite Hs.
  rewrite bool_decide_eq_true_2; [reflexivity | split; assumption].
Qed.

Lemma get2_is_Some (a : ndarray T) (nrow ncol c j : nat) :
  wf2 a nrow ncol -> (c < nrow)%nat -> (j < ncol)%nat ->
  is_Some (get2 a c j).
Proof.
  intros Hw Hc Hj. rewrite (get2_wf2 a nrow ncol) by assumption.
  apply lookup_lt_is_Some. destruct Hw as [_ ->]. nia.
Qed.

Lemma get2_col_out (a : ndarray T) (nrow ncol c j : nat) :
  shape a = [nrow; ncol] -> (ncol <= j)%nat -> get2 a c j = None.
Proof.
  intros Hs Hj. unfold get2. rewrite Hs.
  rewrite bool_decide_eq_false_2; [reflexivity | lia].
Qed.

(** Slicing the first axis of a well-formed block. *)
Lemma getitem_wf2 (a : ndarray T) (nrow ncol : nat) (s : pyslice) :
  wf2 a nrow ncol ->
  exists d,
    getitem a s = Ok d /\
    wf2 d (snd (slice_bounds s nrow) - fst (slice_bounds s nrow)) ncol /\
    forall c j,
      (c < snd (slice_bounds s nrow) - fst (slice_bounds s nrow))%nat ->
      get2 d c j = get2 a (fst (slice_bounds s nrow) + c) j.
Proof.
  intros [Hs Hb]. unfold getitem. rewrite Hs.
  assert (Hlo : (fst (slice_bounds s nrow) <= nrow)%nat)
    by (unfold slice_bounds; simpl; lia).
  assert (Hhi : (snd (slice_bounds s nrow) <= nrow)%nat)
    by (unfold slice_bounds; simpl; lia).
  destruct (slice_bounds s nrow) as [lo hi]; simpl in Hlo, Hhi |- *.
  eexists; split; [reflexivity |].
  assert (Hw : wf2 {| shape := [(hi - lo)%nat; ncol];
                      buf := take ((hi - lo) * (ncol * 1))
                               (drop (lo * (ncol * 1)) (buf a)) |}
                 (hi - lo) ncol).
  { split; [reflexivity |]. simpl.
    rewrite length_take, length_drop, Hb. nia. }
  split; [exact Hw |].
  intros c j Hc.
  destruct (decide (j < ncol)%nat) as [Hj | Hj].
  - rewrite (get2_wf2 _ _ _ _ _ Hw Hc Hj).
    rewrite (get2_wf2 a nrow ncol) by (try split; try assumption; lia).
    simpl. rewrite lookup_take_lt by nia. rewrite lookup_drop.
    f_equal. nia.
  - rewrite (get2_col_out _ (hi - lo) ncol) by (try reflexivity; lia).
    rewrite (get2_col_out a nrow ncol) by (try assumption; lia).
    reflexivity.
Qed.

End ArrayFacts.

(** ** Reshaping and averaging a block of two axes *)

Section Scrunch.

Context {T : Type} `{DType T}.

Lemma divides_nat (nt : nat) (k : Z) :
  0 < k -> Z.of_nat nt mod k = 0 ->
  k = Z.of_nat (Z.to_nat k) /\
  (0 < Z.to_nat k)%nat /\
  nt = (nt / Z.to_nat k * Z.to_nat k)%nat /\
  Z.of_nat nt / k = Z.of_nat (nt / Z.to_nat k).
Proof.
  intros Hk Hmod.
  assert (Hkn : k = Z.of_nat (Z.to_nat k)) by (rewrite Z2Nat.id; lia).
  split; [exact Hkn |]. split; [lia |].
  rewrite Hkn in Hmod at 1. rewrite <- Nat2Z.inj_mod in Hmod.
  split.
  - pose proof (Nat.div_mod_eq nt (Z.to_nat k)) as Hdm. lia.
  - rewrite Hkn at 1. symmetry. apply Nat2Z.inj_div.
Qed.

(** The scrunching steps of [get_next_block] on a block [d] of [nr]
    channels and [nt] samples, for a factor [k] that divides [nt]: the
    reshape is accepted, and sample [j] of channel [c] of the result is the
    cast mean of the [k] samples of that channel from [j * k] on. *)
Lemma scrunch_array (d : ndarray T) (nr nt : nat) (k : Z) :
  wf2 d nr nt -> 0 < k -> Z.of_nat nt mod k = 0 ->
  exists d3 m,
    set_shape d (map Z.of_nat (take 1 (shape d)) ++ [Z.of_nat nt / k; k])
      = Ok d3 /\
    mean d3 = Ok m /\
    wf2 (astype_array m) nr (nt / Z.to_nat k) /\
    forall c j, (c < nr)%nat -> (j < nt / Z.to_nat k)%nat ->
      exists w,
        length w = Z.to_nat k /\
        (forall i, (i < Z.to_nat k)%nat ->
           get2 d c (j * Z.to_nat k + i) = w !! i) /\
        get2 (astype_array m) c j = Some (astype (np_mean w)).
Proof.
  intros Hw Hk Hmod.
  destruct (divides_nat nt k Hk Hmod) as (Hkn & Hpos & Hnt & Hq).
  set (kn := Z.to_nat k) in *. set (q := (nt / kn)%nat) in *.
  pose proof Hw as [Hs Hb].
  exists {| shape := [nr; q; kn]; buf := buf d |}.
  exists {| shape := [nr; q];
            buf := map np_mean (runs kn (nr * (q * 1)) (buf d)) |}.
  split.
  { unfold set_shape. rewrite Hs, Hq. simpl.
    replace (0 <=? Z.of_nat nr) with true by (symmetry; apply Z.leb_le; lia).
    replace (0 <=? Z.of_nat q) with true by (symmetry; apply Z.leb_le; lia).
    replace (0 <=? k) with true by (symmetry; apply Z.leb_le; lia).
    replace (Z.of_nat (length (buf d))
               =? Z.of_nat nr * (Z.of_nat q * (k * 1))) with true
      by (symmetry; apply Z.eqb_eq; rewrite Hb; nia).
    simpl. rewrite !Nat2Z.id. reflexivity. }
  split; [reflexivity |].
  assert (Hwo : wf2 (astype_array
                       {| shape := [nr; q];
                          buf := map np_mean (runs kn (nr * (q * 1)) (buf d)) |})
                  nr q).
  { split; [reflexivity |]. simpl.
    rewrite !length_map, length_runs. lia. }
  split; [exact Hwo |].
  intros c j Hc Hj.
  assert (Hidx : (c * q + j < nr * (q * 1))%nat) by nia.
  assert (Hfit : ((c * q + j) * kn + kn <= length (buf d))%nat).
  { rewrite Hb. clearbody q kn. subst nt. nia. }
  exists (take kn (drop ((c * q + j) * kn) (buf d))).
  split; [apply length_run; exact Hfit |].
  split.
  - intros i Hi.
    rewrite (get2_wf2 d nr nt) by (try assumption; nia).
    rewrite lookup_run by exact Hi.
    f_equal. clearbody q kn. subst nt. nia.
  - rewrite (get2_wf2 _ nr q) by assumption.
    simpl. rewrite !lookup_map, lookup_runs by exact Hidx. reflexivity.
Qed.

End Scrunch.

(** ** The message of an indivisible scrunch *)

Lemma append_cancel_l (p a b : string) :
  (p ++ a)%string = (p ++ b)%string -> a = b.
Proof.
  induction p as [| x p IH]; simpl; [trivial |].
  intros [= Heq]. exact (IH Heq).
Qed.

Lemma split_unique (c : ascii) (a a' r r' : string) :
  lacks c a = true -> lacks c a' = true ->
  (a ++ String c r)%string = (a' ++ String c r')%string ->
  a = a' /\ r = r'.
Proof.
  revert a'. induction a as [| x a IH]; intros [| y a']; simpl.
  - intros _ _ [= ->]. split; reflexivity.
  - intros _ Hl [= <- _]. rewrite Ascii.eqb_refl in Hl. discriminate.
  - intros Hl _ [= -> _]. rewrite Ascii.eqb_refl in Hl. discriminate.
  - intros Hl Hl' [= -> Heq].
    apply andb_prop in Hl as [_ Hl]. apply andb_prop in Hl' as [_ Hl'].
    destruct (IH a' Hl Hl' Heq) as [-> ->]. split; reflexivity.
Qed.

Lemma lacks_string_of_uint (d : Decimal.uint) :
  lacks ")" (NilEmpty.string_of_uint d) = true.
Proof. induction d; simpl; trivial. Qed.

Lemma lacks_NilZero_string_of_uint (d : Decimal.uint) :
  lacks ")" (NilZero.string_of_uint d) = true.
Proof.
  destruct d; unfold NilZero.string_of_uint;
    [reflexivity | apply lacks_string_of_uint ..].
Qed.

Lemma lacks_pct_d (z : Z) : lacks ")" (pct_d z) = true.
Proof.
  unfold pct_d. destruct z as [| p | p]; simpl; [reflexivity | |];
    apply lacks_NilZero_string_of_uint.
Qed.

Lemma pct_d_inj (k k' : Z) : pct_d k = pct_d k' -> k = k'.
Proof.
  unfold pct_d. intros Heq. apply DecimalZ.to_int_inj.
  assert (Hnn : forall z, Z.to_int z <> Decimal.Pos Decimal.Nil
                          /\ Z.to_int z <> Decimal.Neg Decimal.Nil).
  { intros [| p | p]; simpl; split; try discriminate;
      intros [= Hp]; exact (Unsigned.to_uint_nonnil p Hp). }
  destruct (Hnn k) as [Hk1 Hk2]. destruct (Hnn k') as [Hk1' Hk2'].
  pose proof (NilZero.isi _ Hk1 Hk2) as Hi.
  rewrite Heq, (NilZero.isi _ Hk1' Hk2') in Hi. congruence.
Qed.

(** The message determines the factor and the time length it was
    formatted from. *)
Lemma scrunch_msg_inj (k n k' n' : Z) :
  scrunch_msg k n = scrunch_msg k' n' -> k = k' /\ n = n'.
Proof.
  unfold scrunch_msg. intros Heq.
  apply append_cancel_l in Heq.
  change (pct_d k ++ String ")"
            (" must divide native time block size (" ++ pct_d n ++ ")")
          = pct_d k' ++ String ")"
            (" must divide native time block size (" ++ pct_d n' ++ ")"))%string
    in Heq.
  apply split_unique in Heq as [Hk Heq]; try apply lacks_pct_d.
  apply append_cancel_l in Heq.
  change (pct_d n ++ String ")" "" = pct_d n' ++ String ")" "")%string in Heq.
  apply split_unique in Heq as [Hn _]; try apply lacks_pct_d.
  split; apply pct_d_inj; assumption.
Qed.

(** ** [get_next_block] *)

Section Engine.

Context {T S : Type} `{DType T} `{Source T S}.

(** [get_next_block] once the block is fetched and sliced. *)
Lemma get_next_block_after_slice (self : DataSource) (s s' : S) (t0 : float)
    (blk d : ndarray T) (fr : list float) (sl : pyslice) :
  get_next_block_native s = (Ok (t0, blk), s') ->
  _freq_native_and_slice self = Ok (fr, sl) ->
  getitem blk sl = Ok d ->
  get_next_block self s =
    (if _scrunch self =? 1 then Ok (t0, d) else
     match shape_at d 1 with
     | Raise e => Raise e
     | Ok ntime =>
         if _scrunch self =? 0 then Raise ZeroDivisionError else
         if negb (ntime mod _scrunch self =? 0)
         then Raise (NotImplementedError (scrunch_msg (_scrunch self) ntime))
         else
           match set_shape d (map Z.of_nat (take 1 (shape d))
                                ++ [ntime / _scrunch self; _scrunch self]) with
           | Raise e => Raise e
           | Ok d3 =>
               match mean d3 with
               | Raise e => Raise e
               | Ok m =>
                   Ok ((t0 + delta_t self
                             * (1 - 1 / float_of_int (_scrunch self)) / 2)%float,
                       astype_array m)
               end
           end
     end, s').
Proof.
  intros Hnat Hsl Hget.
  unfold get_next_block, bind, lift, ret, raise.
  rewrite Hnat, Hsl, Hget.
  destruct (_scrunch self =? 1); [reflexivity |].
  destruct (shape_at d 1); [| reflexivity].
  destruct (_scrunch self =? 0); [reflexivity |].
  destruct (negb _); [reflexivity |].
  destruct (set_shape _ _); [| reflexivity].
  destruct (mean _); reflexivity.
Qed.

Lemma shape_at_time (d : ndarray T) (nr nt : nat) :
  wf2 d nr nt -> shape_at d 1 = Ok (Z.of_nat nt).
Proof. intros [Hs _]. unfold shape_at. rewrite Hs. reflexivity. Qed.

(** A factor above one that does not divide the time length of the sliced
    block. *)
Lemma get_next_block_indivisible (self : DataSource) (s s' : S) (t0 : float)
    (blk : ndarray T) (nf nt : nat) (sl : pyslice) :
  delivers self s t0 blk nf nt sl s' ->
  _scrunch self <> 0 -> _scrunch self <> 1 ->
  Z.of_nat nt mod _scrunch self <> 0 ->
  get_next_block self s =
    (Raise (NotImplementedError (scrunch_msg (_scrunch self) (Z.of_nat nt))),
     s').
Proof.
  intros (Hnat & Hw & fr & Hsl) Hk0 Hk1 Hmod.
  destruct (getitem_wf2 blk nf nt sl Hw) as (d & Hget & Hwd & _).
  rewrite (get_next_block_after_slice self s s' t0 blk d fr sl Hnat Hsl Hget).
  rewrite (shape_at_time d _ nt Hwd).
  destruct (Z.eqb_spec (_scrunch self) 1) as [| _]; [contradiction |].
  destruct (Z.eqb_spec (_scrunch self) 0) as [| _]; [contradiction |].
  destruct (Z.eqb_spec (Z.of_nat nt mod _scrunch self) 0) as [| _];
    [contradiction |].
  reflexivity.
Qed.

(** A factor above one that divides it. *)
Lemma get_next_block_divisible (self : DataSource) (s s' : S) (t0 : float)
    (blk : ndarray T) (nf nt : nat) (sl : pyslice) :
  delivers self s t0 blk nf nt sl s' ->
  1 < _scrunch self ->
  Z.of_nat nt mod _scrunch self = 0 ->
  exists d out,
    getitem blk sl = Ok d /\
    get_next_block self s =
      (Ok ((t0 + delta_t self
                 * (1 - 1 / float_of_int (_scrunch self)) / 2)%float, out),
       s') /\
    wf2 out (snd (slice_bounds sl nf) - fst (slice_bounds sl nf))
        (nt / Z.to_nat (_scrunch self)) /\
    forall c j,
      (c < snd (slice_bounds sl nf) - fst (slice_bounds sl nf))%nat ->
      (j < nt / Z.to_nat (_scrunch self))%nat ->
      exists w,
        length w = Z.to_nat (_scrunch self) /\
        (forall i, (i < Z.to_nat (_scrunch self))%nat ->
           get2 blk (fst (slice_bounds sl nf) + c)
                (j * Z.to_nat (_scrunch self) + i) = w !! i) /\
        get2 out c j = Some (astype (np_mean w)).
Proof.
  intros (Hnat & Hw & fr & Hsl) Hk Hmod.
  destruct (getitem_wf2 blk nf nt sl Hw) as (d & Hget & Hwd & Hrows).
  destruct (scrunch_array d _ nt (_scrunch self) Hwd ltac:(lia) Hmod)
    as (d3 & m & Hset & Hmean & Hwo & Hval).
  exists d, (astype_array m). split; [exact Hget |]. split.
  - rewrite (get_next_block_after_slice self s s' t0 blk d fr sl Hnat Hsl Hget).
    rewrite (shape_at_time d _ nt Hwd).
    destruct (Z.eqb_spec (_scrunch self) 1) as [| _]; [lia |].
    destruct (Z.eqb_spec (_scrunch self) 0) as [| _]; [lia |].
    destruct (Z.eqb_spec (Z.of_nat nt mod _scrunch self) 0) as [_ |];
      [| contradiction].
    simpl negb. cbv iota. rewrite Hset, Hmean. reflexivity.
  - split; [exact Hwo |].
    intros c j Hc Hj.
    destruct (Hval c j Hc Hj) as (w & Hlen & Hwin & Hout).
    exists w. split; [exact Hlen |]. split; [| exact Hout].
    intros i Hi. rewrite <- (Hwin i Hi). symmetry. apply Hrows. exact Hc.
Qed.

End Engine.


Section Claims.

Context {T S : Type} `{DType T} `{Source T S}.



(** C4. A scrunch factor [k > 1] that does not divide the time length of
    the block makes [get_next_block] raise [NotImplementedError] (the
    specification's [IndivisibleScrunchError]) with the message formatted
    from the factor and the time length, and the message determines both.
    With eight time samples a factor of three raises it with [(3, 8)], and a
    factor of four returns exactly two samples per channel. *)
Theorem get_next_block_indivisible_scrunch (self : DataSource) (s s' : S)
    (t0 : float) (blk : ndarray T) (nf nt : nat) (sl : pyslice) :
  delivers self s t0 blk nf nt sl s' ->
  (1 < _scrunch self ->
   Z.of_nat nt mod _scrunch self <> 0 ->
   get_next_block self s =
     (Raise (NotImplementedError
               (scrunch_msg (_scrunch self) (Z.of_nat nt))), s') /\
   forall k' n',
     scrunch_msg (_scrunch self) (Z.of_nat nt) = scrunch_msg k' n' ->
     _scrunch self = k' /\ Z.of_nat nt = n') /\
  (nt = 8%nat -> _scrunch self = 3 ->
   get_next_block self s =
     (Raise (NotImplementedError
        "Scrunch factor (3) must divide native time block size (8)"), s')) /\
  (nt = 8%nat -> _scrunch self = 4 ->
   exists t0' out,
     get_next_block self s = (Ok (t0', out), s') /\
     shape out
       = [(snd (slice_bounds sl nf) - fst (slice_bounds sl nf))%nat; 2%nat]).
Proof.
  intros Hd. split; [| split].
  - intros Hk Hmod. split; [| intros k' n'; apply scrunch_msg_inj].
    apply (get_next_block_indivisible self s s' t0 blk nf nt sl);
      try assumption; lia.
  - intros -> Hk.
    rewrite (get_next_block_indivisible self s s' t0 blk nf 8 sl Hd);
      rewrite Hk; try reflexivity; try discriminate.
  - intros -> Hk.
    destruct (get_next_block_divisible self s s' t0 blk nf 8 sl Hd)
      as (_ & out & _ & Hrun & [Hs _] & _);
      try (rewrite Hk; reflexivity).
    eexists; exists out. split; [exact Hrun |].
    rewrite Hs, Hk. reflexivity.
Qed.

End Claims.

Section ClaimsTime.

Context {T S : Type} `{DType T} `{Source T S}.

(** C2. Whenever [get_next_block] returns, the [t0] it returns is the
    native [t0] when the scrunch factor [k] is one, and the native [t0]
    plus [delta_t_native * k * (1 - 1/k) / 2] when [k > 1]; it returns for
    no other factor. *)
Theorem get_next_block_t0 (self : DataSource) (s s1 s' : S)
    (t0 t0' : float) (blk out : ndarray T) :
  get_next_block_native s = (Ok (t0, blk), s1) ->
  get_next_block self s = (Ok (t0', out), s') ->
  let k := _scrunch self in
  (k = 1 /\ t0' = t0) \/
  (1 < k /\
   t0' = (t0 + _delta_t_native self * float_of_int k
                 * (1 - 1 / float_of_int k) / 2)%float).
Proof.
  intros Hnat Hrun k.
  destruct (_freq_native_and_slice self) as [[fr sl] | e] eqn:Hsl.
  2:{ unfold get_next_block, bind, lift in Hrun.
      rewrite Hnat, Hsl in Hrun. discriminate. }
  destruct (getitem blk sl) as [d | e] eqn:Hget.
  2:{ unfold get_next_block, bind, lift in Hrun.
      rewrite Hnat, Hsl, Hget in Hrun. discriminate. }
  rewrite (get_next_block_after_slice self s s1 t0 blk d fr sl Hnat Hsl Hget)
    in Hrun.
  fold k in Hrun.
  destruct (Z.eqb_spec k 1) as [Hk1 | Hk1].
  { left. split; [exact Hk1 | congruence]. }
  destruct (shape_at d 1) as [ntime | e]; [| discriminate].
  destruct (Z.eqb_spec k 0) as [Hk0 | Hk0]; [discriminate |].
  destruct (negb _); [discriminate |].
  destruct (set_shape _ _) as [d3 | e] eqn:Hset; [| discriminate].
  destruct (mean d3) as [m | e]; [| discriminate].
  right. split.
  - unfold set_shape in Hset.
    destruct (forallb _ _) eqn:Hnn; [| discriminate].
    rewrite forallb_app in Hnn. apply andb_prop in Hnn as [_ Hnn].
    simpl in Hnn. rewrite !andb_true_iff in Hnn.
    destruct Hnn as (_ & Hnn & _). apply Z.leb_le in Hnn. lia.
  - inversion Hrun. unfold delta_t. reflexivity.
Qed.

(** C5. With a scrunch factor of one, [get_next_block] is
    [get_next_block_native] followed by the frequency selection alone: the
    same result, the same error and the same state of the source. *)
Theorem get_next_block_unscrunched (self : DataSource) (s : S) :
  _scrunch self = 1 ->
  get_next_block self s = get_next_block_sliced_only self s.
Proof.
  intros Hk.
  unfold get_next_block, get_next_block_sliced_only, slice_only,
    bind, lift, ret.
  destruct (get_next_block_native s) as [[[t0 blk] | e] s']; [| reflexivity].
  destruct (_freq_native_and_slice self) as [[fr sl] | e]; [| reflexivity].
  simpl. destruct (getitem blk sl) as [d | e]; [| reflexivity].
  rewrite Hk. reflexivity.
Qed.

(** C8. An exception of [get_next_block_native], [StopIteration] among
    them, is the outcome of [get_next_block] as it is: same exception, same
    state, whatever the passband and the scrunch factor, and no block. The
    [NotImplementedError] of an indivisible scrunch reaches the caller the
    same way. *)
Theorem get_next_block_propagates (self : DataSource) (s s' : S) :
  (forall e,
     get_next_block_native s = (Raise e, s') ->
     get_next_block self s = (Raise e, s')) /\
  (get_next_block_native s = (Raise StopIteration, s') ->
   get_next_block self s = (Raise StopIteration, s')) /\
  (forall t0 blk nf nt sl,
     delivers self s t0 blk nf nt sl s' ->
     1 < _scrunch self ->
     Z.of_nat nt mod _scrunch self <> 0 ->
     get_next_block self s =
       (Raise (NotImplementedError
                 (scrunch_msg (_scrunch self) (Z.of_nat nt))), s')).
Proof.
  assert (Hany : forall e,
             get_next_block_native s = (Raise e, s') ->
             get_next_block self s = (Raise e, s')).
  { intros e Hnat. unfold get_next_block, bind. rewrite Hnat. reflexivity. }
  split; [exact Hany |]. split; [apply Hany |].
  intros t0 blk nf nt sl Hd Hk Hmod.
  apply (get_next_block_indivisible self s s' t0 blk nf nt sl);
    try assumption; lia.
Qed.

End ClaimsTime.

(** ** Binary64 arithmetic *)

Lemma SFadd_comm (p e : Z) (x y : spec_float) : SFadd p e x y = SFadd p e y x.
Proof.
  destruct x as [sx | sx | | sx mx ex], y as [sy | sy | | sy my ey];
    simpl; try reflexivity; try (destruct sx, sy; reflexivity).
  rewrite (Z.min_comm ey ex). f_equal. apply Z.add_comm.
Qed.

Lemma float_add_comm (x y : float) : (x + y = y + x)%float.
Proof. apply Prim2SF_inj. rewrite !add_spec. apply SFadd_comm. Qed.

(** ** The frequency axis *)

Lemma elem_of_nonzero_from (mask : list bool) (i j : nat) :
  j ∈ nonzero_from i mask <-> (i <= j)%nat /\ mask !! (j - i)%nat = Some true.
Proof.
  revert i. induction mask as [| b mask IH]; intros i; simpl.
  - rewrite elem_of_nil. split; [tauto | intros [_ Hl]; discriminate].
  - assert (Hstep : ((S i <= j)%nat /\ mask !! (j - S i)%nat = Some true) <->
                    ((i < j)%nat /\ (b :: mask) !! (j - i)%nat = Some true)).
    { split; intros [Hle Hl]; (split; [lia |]).
      - replace (j - i)%nat with (S (j - S i)) by lia. exact Hl.
      - replace (j - i)%nat with (S (j - S i)) in Hl by lia. exact Hl. }
    destruct b.
    + rewrite elem_of_cons, IH, Hstep. split.
      * intros [-> | [Hlt Hl]]; [| split; [lia | exact Hl]].
        split; [lia |]. rewrite Nat.sub_diag. reflexivity.
      * intros [Hle Hl]. destruct (decide (j = i)) as [-> | Hne];
          [left; reflexivity | right; split; [lia | exact Hl]].
    + rewrite IH, Hstep. split.
      * intros [Hlt Hl]. split; [lia | exact Hl].
      * intros [Hle Hl]. destruct (decide (j = i)) as [-> | Hne].
        -- rewrite Nat.sub_diag in Hl. discriminate.
        -- split; [lia | exact Hl].
Qed.

Lemma nonzero_from_first (mask : list bool) (i first : nat) :
  nonzero_from i mask !! 0%nat = Some first ->
  forall j, j ∈ nonzero_from i mask -> (first <= j)%nat.
Proof.
  revert i. induction mask as [| b mask IH]; intros i; simpl.
  - discriminate.
  - destruct b.
    + intros [= <-] j Hj.
      apply (elem_of_nonzero_from (true :: mask) i j) in Hj. lia.
    + apply IH.
Qed.


Section FrequencyAxis.

Variable self : DataSource.

Lemma length_freq_native : length (freq_native self) = _nfreq self.
Proof.
  unfold freq_native, arange. rewrite !length_map. apply length_seq.
Qed.

Lemma lookup_freq_native (i : nat) :
  (i < _nfreq self)%nat ->
  freq_native self !! i
    = Some (float_of_int (Z.of_nat i) * _delta_f self + _freq0 self)%float.
Proof.
  intros Hi. unfold freq_native, arange, delta_f.
  rewrite !lookup_map, lookup_seq_lt by exact Hi. reflexivity.
Qed.

Lemma qualifies_lt (pb : float * float) (i : nat) :
  qualifies self pb i = true -> (i < _nfreq self)%nat.
Proof.
  unfold qualifies. intros Hq.
  destruct (freq_native self !! i) as [f |] eqn:Hf; [| discriminate].
  apply lookup_lt_Some in Hf. rewrite length_freq_native in Hf. exact Hf.
Qed.

Lemma qualifies_nonzero (pb : float * float) (i : nat) :
  qualifies self pb i = true <->
  i ∈ nonzero (inband_mask pb (freq_native self)).
Proof.
  unfold nonzero. rewrite elem_of_nonzero_from, Nat.sub_0_r.
  unfold inband_mask, qualifies. rewrite lookup_map.
  destruct (freq_native self !! i) as [f |]; simpl.
  - split; [intros ->; split; [lia | reflexivity] | intros [_ [= ->]]; reflexivity].
  - split; [discriminate | intros [_ Hn]; discriminate].
Qed.


End FrequencyAxis.

Lemma getslice_all {A : Type} (l : list A) :
  getslice l {| start := None; stop := None |} = l.
Proof.
  unfold getslice, slice_bounds. simpl.
  rewrite Nat.min_id, Nat.sub_0_r. apply firstn_all.
Qed.

Lemma getslice_range {A : Type} (l : list A) (first lst : nat) :
  (first <= lst < length l)%nat ->
  getslice l {| start := Some first; stop := Some (lst + 1)%nat |}
    = take (lst + 1 - first) (drop first l).
Proof.
  intros Hr. unfold getslice, slice_bounds. simpl.
  rewrite (Nat.min_l first), (Nat.min_l (lst + 1)) by lia. reflexivity.
Qed.

Lemma getitem_all {T : Type} (blk : ndarray T) (nf nt : nat) :
  wf2 blk nf nt -> getitem blk {| start := None; stop := None |} = Ok blk.
Proof.
  intros [Hs Hb]. unfold getitem, slice_bounds. rewrite Hs. simpl.
  rewrite Nat.min_id, Nat.sub_0_r.
  destruct blk as [sh b]; simpl in *. subst sh. do 2 f_equal.
  apply take_ge. lia.
Qed.


(** C6. With a passband set and no channel strictly inside it, resolving
    the frequency axis raises [IndexError] (the specification's
    [EmptyBandError]): no selection is returned, and [freq], [freq0] and
    [nfreq] fail in the same way. *)
Theorem empty_passband_fails (self : DataSource) (pb : float * float) :
  _passband self = Some pb ->
  (forall i, qualifies self pb i = false) ->
  _freq_native_and_slice self = Raise IndexError /\
  freq self = Raise IndexError /\
  freq0 self = Raise IndexError /\
  nfreq self = Raise IndexError.
Proof.
  intros Hpb Hnone.
  assert (Hres : _freq_native_and_slice self = Raise IndexError).
  { unfold _freq_native_and_slice. rewrite Hpb.
    destruct (nonzero (inband_mask pb (freq_native self))) as [| x rest] eqn:Hin;
      [reflexivity |].
    assert (Hx : qualifies self pb x = true).
    { apply qualifies_nonzero. rewrite Hin. apply elem_of_cons. left.
      reflexivity. }
    rewrite Hnone in Hx. discriminate. }
  unfold freq0, nfreq, freq. rewrite Hres. auto.
Qed.

(** C9. With no passband the resolved selection is the whole native axis
    and removes no channel of a block; [freq] has as many entries as there
    are native channels, and entry [i] is [freq0 + i * delta_f]. *)
Theorem no_passband_full_axis (self : DataSource) :
  _passband self = None ->
  exists f sel,
    _freq_native_and_slice self = Ok (f, sel) /\
    indices sel (_nfreq self) = seq 0 (_nfreq self) /\
    (forall (T : Type) (blk : ndarray T) (nf nt : nat),
       wf2 blk nf nt -> getitem blk sel = Ok blk) /\
    freq self = Ok f /\
    length f = _nfreq self /\
    nfreq self = Ok (_nfreq self) /\
    forall i, (i < _nfreq self)%nat ->
      f !! i
        = Some (_freq0 self + float_of_int (Z.of_nat i) * _delta_f self)%float.
Proof.
  intros Hpb.
  exists (freq_native self), {| start := None; stop := None |}.
  assert (Hres : _freq_native_and_slice self
                 = Ok (freq_native self, {| start := None; stop := None |})).
  { unfold _freq_native_and_slice. rewrite Hpb. reflexivity. }
  split; [exact Hres |].
  split; [unfold indices; apply getslice_all |].
  split; [intros T blk nf nt; apply getitem_all |].
  assert (Hfreq : freq self = Ok (freq_native self)).
  { unfold freq. rewrite Hres, getslice_all. reflexivity. }
  split; [exact Hfreq |].
  split; [apply length_freq_native |].
  split; [unfold nfreq; rewrite Hfreq, length_freq_native; reflexivity |].
  intros i Hi. rewrite lookup_freq_native by exact Hi.
  rewrite float_add_comm. reflexivity.
Qed.

(** ** The search wrapper *)

(** C7. [basic] returns exactly one trigger, centred on the sample the
    peak finder reports, when the reported signal-to-noise ratio exceeds
    the threshold (5.0 when omitted), and no trigger otherwise. A peak of
    7.2 at [(120, 4050)] gives one trigger centred there under the threshold
    5.0 and none under 8.0. *)
Theorem basic_threshold {D : Type} (sievers_find_peak : D -> float * (Z * Z) * Z)
    (data : D) (snr_threshold : option float)
    (snr : float) (sample : Z * Z) (duration : Z) :
  sievers_find_peak data = (snr, sample, duration) ->
  let threshold := default 5%float snr_threshold in
  (gt snr threshold = true <->
   exists t, basic sievers_find_peak data snr_threshold = [t]) /\
  (gt snr threshold = false <->
   basic sievers_find_peak data snr_threshold = []) /\
  (forall t, t ∈ basic sievers_find_peak data snr_threshold ->
     centre t = sample /\ Search.data t = data /\ _snr t = snr) /\
  (snr = 7.2%float -> sample = (120, 4050) ->
   (exists t, basic sievers_find_peak data None = [t]
              /\ centre t = (120, 4050)) /\
   (exists t, basic sievers_find_peak data (Some 5%float) = [t]
              /\ centre t = (120, 4050)) /\
   basic sievers_find_peak data (Some 8%float) = []).
Proof.
  intros Hpeak threshold.
  assert (Hbasic : forall thr,
             basic sievers_find_peak data thr
             = if gt snr (default 5%float thr)
               then [new data sample (Some snr)] else []).
  { intros thr. unfold basic. rewrite Hpeak. reflexivity. }
  split; [| split; [| split]].
  - rewrite Hbasic. fold threshold. destruct (gt snr threshold).
    + split; [eauto | reflexivity].
    + split; [discriminate | intros [t Ht]; discriminate].
  - rewrite Hbasic. fold threshold. destruct (gt snr threshold).
    + split; discriminate.
    + split; reflexivity.
  - intros t. rewrite Hbasic. destruct (gt snr _).
    + intros Ht. apply list_elem_of_singleton in Ht. subst t.
      destruct sample. repeat split.
    + intros Ht. apply elem_of_nil in Ht. contradiction.
  - intros -> ->. rewrite !Hbasic. simpl default.
    replace (gt 7.2 5) with true by reflexivity.
    replace (gt 7.2 8) with false by reflexivity.
    repeat split; eexists; split; reflexivity.
Qed.

(** ** The theorems at work on a block of four channels and eight samples *)

Lemma delivers48 (k : Z) (pb : option (float * float)) (sl : pyslice) :
  (exists fr, _freq_native_and_slice (config k pb) = Ok (fr, sl)) ->
  delivers (config k pb) source48 2%float block48 4 8 sl fetched48.
Proof.
  intros Hsl. split; [reflexivity |]. split; [| exact Hsl].
  split; reflexivity.
Defined.



Lemma get_next_block_indivisible_scrunch_witness :
  get_next_block (config 3 None) source48 =
    (Raise (NotImplementedError
       "Scrunch factor (3) must divide native time block size (8)"),
     fetched48) /\
  exists t0' out,
    get_next_block (config 4 None) source48 = (Ok (t0', out), fetched48) /\
    shape out = [4; 2]%nat.
Proof.
  split.
  - apply (proj1 (proj2 (get_next_block_indivisible_scrunch (config 3 None)
             source48 fetched48 2%float block48 4 8
             {| start := None; stop := None |}
             (delivers48 3 None _ (ex_intro _ _ eq_refl))))).
    + reflexivity.
    + reflexivity.
  - apply (get_next_block_indivisible_scrunch (config 4 None)
             source48 fetched48 2%float block48 4 8
             {| start := None; stop := None |}).
    + apply delivers48. eexists. vm_compute. reflexivity.
    + reflexivity.
    + reflexivity.
Defined.

Lemma get_next_block_t0_witness :
  exists t0' out,
    get_next_block (config 4 None) source48 = (Ok (t0', out), fetched48) /\
    t0' = (2 + 0.001 * float_of_int 4 * (1 - 1 / float_of_int 4) / 2)%float.
Proof.
  eexists _, _. split; [vm_compute; reflexivity |].
  destruct (get_next_block_t0 (config 4 None) source48 fetched48 fetched48
              2%float 2.0015000000000001%float block48
              {| shape := [4; 2]%nat;
                 buf := [1; 5; 11; 15; 21; 25; 31; 35] |})
    as [[Hk _] | [_ Ht0]].
  - reflexivity.
  - vm_compute. reflexivity.
  - discriminate Hk.
  - exact Ht0.
Defined.

Lemma get_next_block_unscrunched_witness :
  get_next_block (config 1 (Some (0.5, 2.5)%float)) source48
    = get_next_block_sliced_only (config 1 (Some (0.5, 2.5)%float)) source48.
Proof.
  apply (get_next_block_unscrunched (config 1 (Some (0.5, 2.5)%float))).
  reflexivity.
Defined.

Lemma get_next_block_propagates_witness :
  get_next_block (config 2 (Some (5, 6)%float)) exhausted
    = (Raise StopIteration, exhausted) /\
  get_next_block (config 3 None) source48
    = (Raise (NotImplementedError (scrunch_msg 3 8)), fetched48).
Proof.
  split.
  - apply (get_next_block_propagates (config 2 (Some (5, 6)%float))
             exhausted exhausted).
    reflexivity.
  - apply (get_next_block_propagates (config 3 None) source48 fetched48)
      with (t0 := 2%float) (blk := block48) (nf := 4%nat) (nt := 8%nat)
           (sl := {| start := None; stop := None |}).
    + apply delivers48. eexists. vm_compute. reflexivity.
    + reflexivity.
    + discriminate.
Defined.


Lemma empty_passband_fails_witness :
  _freq_native_and_slice (config 1 (Some (5, 6)%float)) = Raise IndexError /\
  freq (config 1 (Some (5, 6)%float)) = Raise IndexError /\
  freq0 (config 1 (Some (5, 6)%float)) = Raise IndexError /\
  nfreq (config 1 (Some (5, 6)%float)) = Raise IndexError.
Proof.
  apply (empty_passband_fails (config 1 (Some (5, 6)%float)) (5, 6)%float).
  - reflexivity.
  - intros [| [| [| [| i]]]]; reflexivity.
Defined.

Lemma no_passband_full_axis_witness :
  exists f, freq (config 1 None) = Ok f /\ length f = 4%nat.
Proof.
  destruct (no_passband_full_axis (config 1 None))
    as (f & sel & _ & _ & _ & Hfreq & Hlen & _).
  - reflexivity.
  - exists f. split; [exact Hfreq | exact Hlen].
Defined.

Lemma basic_threshold_witness :
  (exists t, basic scripted_peak block48 None = [t]
             /\ centre t = (120, 4050)) /\
  basic scripted_peak block48 (Some 8%float) = [].
Proof.
  pose proof (basic_threshold scripted_peak block48 None
                7.2%float (120, 4050) 3 eq_refl) as (_ & _ & _ & Hcase).
  destruct (Hcase eq_refl eq_refl) as (Hnone & _ & Height).
  split; [exact Hnone | exact Height].
Defined.

(** * Further properties of the code *)

(** ** Resolving the frequency axis *)

Lemma resolve_axis (self : DataSource) (fr : list float) (sl : pyslice) :
  _freq_native_and_slice self = Ok (fr, sl) -> fr = freq_native self.
Proof.
  unfold _freq_native_and_slice.
  destruct (_passband self) as [pb |]; [| intros [= <- _]; reflexivity].
  set (inband := nonzero (inband_mask pb (freq_native self))).
  destruct (item inband 0) as [first |], (item_last inband) as [lst |];
    try discriminate.
  intros [= <- _]. reflexivity.
Qed.

Lemma resolve_empty_band (self : DataSource) (pb : float * float) :
  _passband self = Some pb ->
  (forall i, qualifies self pb i = false) ->
  _freq_native_and_slice self = Raise IndexError.
Proof.
  intros Hpb Hnone. unfold _freq_native_and_slice. rewrite Hpb.
  destruct (nonzero (inband_mask pb (freq_native self))) as [| x rest] eqn:Hin;
    [reflexivity |].
  assert (Hx : x ∈ nonzero (inband_mask pb (freq_native self)))
    by (rewrite Hin; apply elem_of_cons; left; reflexivity).
  apply qualifies_nonzero in Hx. rewrite Hnone in Hx. discriminate.
Qed.

Lemma resolve_passband (self : DataSource) (pb : float * float) :
  _passband self = Some pb ->
  (exists i, qualifies self pb i = true) ->
  exists first lst,
    _freq_native_and_slice self
      = Ok (freq_native self,
            {| start := Some first; stop := Some (lst + 1)%nat |}) /\
    (first <= lst < _nfreq self)%nat /\
    qualifies self pb first = true /\
    qualifies self pb lst = true.
Proof.
  intros Hpb [i0 Hq0]. apply qualifies_nonzero in Hq0.
  unfold _freq_native_and_slice. rewrite Hpb.
  set (inband := nonzero (inband_mask pb (freq_native self))) in *.
  unfold item, item_last.
  destruct (inband !! 0%nat) as [first |] eqn:Hfirst.
  2:{ destruct inband; [apply elem_of_nil in Hq0; contradiction
                       | discriminate]. }
  destruct (last inband) as [lst |] eqn:Hlast.
  2:{ apply last_None in Hlast. rewrite Hlast in Hfirst. discriminate. }
  assert (Hf : first ∈ inband) by (eapply list_elem_of_lookup_2; eassumption).
  assert (Hl : lst ∈ inband).
  { apply last_Some in Hlast as [l' ->]. apply elem_of_app. right.
    apply list_elem_of_singleton. reflexivity. }
  exists first, lst. split; [reflexivity |].
  split; [| split; apply qualifies_nonzero; assumption].
  split; [exact (nonzero_from_first _ _ _ Hfirst lst Hl) |].
  apply (qualifies_lt self pb). apply qualifies_nonzero. exact Hl.
Qed.

Lemma length_getslice {A : Type} (l : list A) (sl : pyslice) :
  length (getslice l sl)
    = (snd (slice_bounds sl (length l)) - fst (slice_bounds sl (length l)))%nat.
Proof.
  unfold getslice.
  assert (Hhi : (snd (slice_bounds sl (length l)) <= length l)%nat)
    by (unfold slice_bounds; simpl; lia).
  destruct (slice_bounds sl (length l)) as [lo hi]; simpl in *.
  rewrite length_take, length_drop. lia.
Qed.

Lemma lookup_getslice {A : Type} (l : list A) (sl : pyslice) (c : nat) :
  (c < snd (slice_bounds sl (length l)) - fst (slice_bounds sl (length l)))%nat ->
  getslice l sl !! c = l !! (fst (slice_bounds sl (length l)) + c)%nat.
Proof.
  unfold getslice.
  destruct (slice_bounds sl (length l)) as [lo hi]; simpl. intros Hc.
  rewrite lookup_take_lt by exact Hc. apply lookup_drop.
Qed.

(** ** Further properties of [get_next_block] *)

Section EngineMore.

Context {T S : Type} `{DType T} `{Source T S}.

(** When [get_next_block] returns a block, the factor is one, or it is
    above one and divides the time length. *)
Lemma get_next_block_returns (self : DataSource) (s s' s'' : S)
    (t0 t0' : float) (blk out : ndarray T) (nf nt : nat) (sl : pyslice) :
  delivers self s t0 blk nf nt sl s' ->
  get_next_block self s = (Ok (t0', out), s'') ->
  _scrunch self = 1 \/
  (1 < _scrunch self /\ Z.of_nat nt mod _scrunch self = 0).
Proof.
  intros Hd Hrun. pose proof Hd as (Hnat & Hw & fr & Hsl).
  destruct (getitem_wf2 blk nf nt sl Hw) as (d & Hget & Hwd & _).
  rewrite (get_next_block_after_slice self s s' t0 blk d fr sl Hnat Hsl Hget)
    in Hrun.
  rewrite (shape_at_time d _ nt Hwd) in Hrun.
  destruct (Z.eqb_spec (_scrunch self) 1) as [Hk1 | Hk1]; [left; exact Hk1 |].
  destruct (Z.eqb_spec (_scrunch self) 0) as [Hk0 | Hk0]; [discriminate |].
  destruct (Z.eqb_spec (Z.of_nat nt mod _scrunch self) 0) as [Hmod | Hmod];
    [| discriminate].
  simpl negb in Hrun. cbv iota in Hrun.
  destruct (set_shape _ _) as [d3 | e] eqn:Hset; [| discriminate].
  right. split; [| exact Hmod].
  unfold set_shape in Hset.
  destruct (forallb _ _) eqn:Hnn; [| discriminate].
  rewrite forallb_app in Hnn. apply andb_prop in Hnn as [_ Hnn].
  simpl in Hnn. rewrite !andb_true_iff in Hnn.
  destruct Hnn as (_ & Hnn & _). apply Z.leb_le in Hnn. lia.
Qed.

(** X1. Whatever its outcome, one call of [get_next_block] leaves the
    source in the state one call of [get_next_block_native] leaves it in,
    and it returns a block only if that call returned one. *)
Theorem get_next_block_fetches_once (self : DataSource) (s : S) :
  snd (get_next_block self s) = snd (get_next_block_native s) /\
  forall r, fst (get_next_block self s) = Ok r ->
            exists r0, fst (get_next_block_native s) = Ok r0.
Proof.
  unfold get_next_block, bind, lift, ret, raise.
  destruct (get_next_block_native s) as [[[t0 blk] | e] s1]; simpl;
    [| split; [reflexivity | discriminate]].
  split; [| intros r _; eexists; reflexivity].
  repeat match goal with
         | |- context [match ?x with _ => _ end] => destruct x; simpl
         end; reflexivity.
Qed.

(** X2. With a passband that no channel lies inside, [get_next_block]
    raises [IndexError] whatever the scrunch factor, after the block has
    been taken from the source: the state is the one after the fetch. *)
Theorem get_next_block_empty_band (self : DataSource) (s s' : S)
    (t0 : float) (blk : ndarray T) (pb : float * float) :
  get_next_block_native s = (Ok (t0, blk), s') ->
  _passband self = Some pb ->
  (forall i, qualifies self pb i = false) ->
  get_next_block self s = (Raise IndexError, s').
Proof.
  intros Hnat Hpb Hnone. unfold get_next_block, bind, lift.
  rewrite Hnat, (resolve_empty_band self pb Hpb Hnone). reflexivity.
Qed.

(** X3. A scrunch factor of zero makes [get_next_block] raise
    [ZeroDivisionError] on every block it fetches. *)
Theorem get_next_block_zero_scrunch (self : DataSource) (s s' : S)
    (t0 : float) (blk : ndarray T) (nf nt : nat) (sl : pyslice) :
  delivers self s t0 blk nf nt sl s' ->
  _scrunch self = 0 ->
  get_next_block self s = (Raise ZeroDivisionError, s').
Proof.
  intros (Hnat & Hw & fr & Hsl) Hk.
  destruct (getitem_wf2 blk nf nt sl Hw) as (d & Hget & Hwd & _).
  rewrite (get_next_block_after_slice self s s' t0 blk d fr sl Hnat Hsl Hget).
  rewrite (shape_at_time d _ nt Hwd), Hk. reflexivity.
Qed.

(** X4. A source built with the default scrunch factor and no passband
    hands out the native blocks as they are: [get_next_block] and
    [get_next_block_native] give the same result, block or exception. *)
Theorem default_source_passes_through (block overlap : option float)
    (geo : Geometry) (s : S) :
  (forall t0 blk s', get_next_block_native s = (Ok (t0, blk), s') ->
                     exists nf nt, wf2 blk nf nt) ->
  get_next_block (__init__ block overlap None None geo) s
    = get_next_block_native s.
Proof.
  intros Hwf. unfold get_next_block, bind, lift, ret.
  destruct (get_next_block_native s) as [[[t0 blk] | e] s'] eqn:Hnat;
    [| reflexivity].
  destruct (Hwf t0 blk s' eq_refl) as (nf & nt & Hw).
  unfold _freq_native_and_slice. simpl.
  rewrite (getitem_all blk nf nt Hw). reflexivity.
Qed.


End EngineMore.

(** ** The order of binary64 numbers *)

Lemma SFltb_trans (x y z : spec_float) :
  SFltb x y = true -> SFltb y z = true -> SFltb x z = true.
Proof.
  unfold SFltb.
  destruct x as [sx | sx | | sx mx ex], y as [sy | sy | | sy my ey],
           z as [sz | sz | | sz mz ez]; simpl;
    try discriminate; try reflexivity;
    try (destruct sx; try discriminate; try reflexivity;
         destruct sy; try discriminate; try reflexivity;
         try (destruct sz; try discriminate; reflexivity)).
  all: try (destruct sz; try discriminate; try reflexivity).
  all: change (PosDef.Pos.compare_cont Eq) with Pos.compare.
  all: destruct (Z.compare_spec ex ey), (Z.compare_spec ey ez),
         (Z.compare_spec ex ez); simpl; try discriminate; try reflexivity;
         try lia.
  all: destruct (Pos.compare_spec mx my), (Pos.compare_spec my mz),
         (Pos.compare_spec mx mz); simpl; try discriminate; try reflexivity;
         try lia.
Qed.

Lemma SFltb_irrefl (x : spec_float) : SFltb x x = false.
Proof.
  unfold SFltb. destruct x as [s | s | | s m e]; simpl; try reflexivity.
  - destruct s; reflexivity.
  - change (PosDef.Pos.compare_cont Eq) with Pos.compare.
    rewrite Z.compare_refl, Pos.compare_refl. destruct s; reflexivity.
Qed.

Lemma float_ltb_trans (x y z : float) :
  PrimFloat.ltb x y = true -> PrimFloat.ltb y z = true ->
  PrimFloat.ltb x z = true.
Proof. rewrite !FloatAxioms.ltb_spec. apply SFltb_trans. Qed.

Lemma float_ltb_irrefl (x : float) : PrimFloat.ltb x x = false.
Proof. rewrite FloatAxioms.ltb_spec. apply SFltb_irrefl. Qed.

Lemma SFeqb_refl_nan (x : spec_float) : SFeqb x x = false -> x = S754_nan.
Proof.
  unfold SFeqb. destruct x as [s | s | | s m e]; simpl; try reflexivity.
  - discriminate.
  - destruct s; discriminate.
  - change (PosDef.Pos.compare_cont Eq) with Pos.compare.
    rewrite Z.compare_refl, Pos.compare_refl. destruct s; discriminate.
Qed.

Lemma float_ltb_nan (x y : float) :
  is_nan x = true \/ is_nan y = true -> PrimFloat.ltb x y = false.
Proof.
  assert (Hnan : forall u, is_nan u = true -> Prim2SF u = S754_nan).
  { intros u. unfold is_nan. rewrite FloatAxioms.eqb_spec. intros Hu.
    apply SFeqb_refl_nan. destruct (SFeqb _ _); [discriminate | reflexivity]. }
  rewrite FloatAxioms.ltb_spec. intros [Hx | Hy].
  - rewrite (Hnan x Hx). reflexivity.
  - rewrite (Hnan y Hy). unfold SFltb. destruct (Prim2SF x); reflexivity.
Qed.

(** ** Further properties of the frequency axis *)

(** X6. A passband whose first bound is not below its second one, the
    order [(maximum, minimum)] among them, or one with a NaN bound, has no
    channel inside it: resolving the frequency axis raises [IndexError]. *)
Theorem passband_out_of_order (self : DataSource) (pb : float * float) :
  _passband self = Some pb ->
  PrimFloat.ltb (fst pb) (snd pb) = false ->
  (forall i, qualifies self pb i = false) /\
  _freq_native_and_slice self = Raise IndexError /\
  freq self = Raise IndexError.
Proof.
  intros Hpb Hord.
  assert (Hnone : forall i, qualifies self pb i = false).
  { intros i. unfold qualifies, gt.
    destruct (freq_native self !! i) as [f |]; [| reflexivity].
    destruct (PrimFloat.ltb (fst pb) f) eqn:Hlo; [| reflexivity].
    destruct (PrimFloat.ltb f (snd pb)) eqn:Hhi; [| reflexivity].
    rewrite (float_ltb_trans _ _ _ Hlo Hhi) in Hord. discriminate. }
  split; [exact Hnone |].
  pose proof (resolve_empty_band self pb Hpb Hnone) as Hres.
  split; [exact Hres |]. unfold freq. rewrite Hres. reflexivity.
Qed.

(** X7. With a passband that some channel lies inside, [freq] starts at
    the first such channel and ends at the last one: [freq0] and the last
    entry of [freq] lie strictly inside the passband, and [nfreq] is the
    length of [freq], at least one and at most the native channel count. *)
Theorem freq_ends_in_band (self : DataSource) (pb : float * float) :
  _passband self = Some pb ->
  (exists i, qualifies self pb i = true) ->
  exists f f0 fl,
    freq self = Ok f /\
    nfreq self = Ok (length f) /\
    (1 <= length f <= _nfreq self)%nat /\
    freq0 self = Ok f0 /\
    f !! 0%nat = Some f0 /\
    last f = Some fl /\
    (gt f0 (fst pb) && PrimFloat.ltb f0 (snd pb) = true) /\
    (gt fl (fst pb) && PrimFloat.ltb fl (snd pb) = true).
Proof.
  intros Hpb Hex.
  destruct (resolve_passband self pb Hpb Hex)
    as (first & lst & Hres & Hr & Hqf & Hql).
  unfold qualifies in Hqf, Hql.
  destruct (freq_native self !! first) as [f0 |] eqn:Hf0; [| discriminate].
  destruct (freq_native self !! lst) as [fl |] eqn:Hfl; [| discriminate].
  set (f := take (lst + 1 - first) (drop first (freq_native self))).
  assert (Hfreq : freq self = Ok f).
  { unfold freq. rewrite Hres, getslice_range
      by (rewrite length_freq_native; exact Hr). reflexivity. }
  assert (Hlen : length f = (lst + 1 - first)%nat).
  { unfold f. rewrite length_take, length_drop, length_freq_native. lia. }
  assert (H0 : f !! 0%nat = Some f0).
  { unfold f. rewrite lookup_run by lia. rewrite Nat.add_0_r. exact Hf0. }
  exists f, f0, fl.
  split; [exact Hfreq |].
  split; [unfold nfreq; rewrite Hfreq; reflexivity |].
  split; [lia |].
  split; [unfold freq0, item; rewrite Hfreq, H0; reflexivity |].
  split; [exact H0 |].
  split.
  { rewrite last_lookup, Hlen. unfold f. rewrite lookup_run by lia.
    rewrite <- Hfl. f_equal. lia. }
  split; assumption.
Qed.

(** X8. A source without channels has an empty frequency axis when no
    passband is set, and [freq0] raises [IndexError] with or without one. *)
Theorem no_channels (self : DataSource) :
  _nfreq self = 0%nat ->
  freq0 self = Raise IndexError /\
  (_passband self = None -> freq self = Ok [] /\ nfreq self = Ok 0%nat) /\
  (forall pb, _passband self = Some pb ->
              freq self = Raise IndexError /\ nfreq self = Raise IndexError).
Proof.
  intros Hn.
  assert (Hfn : freq_native self = []).
  { unfold freq_native, arange. rewrite Hn. reflexivity. }
  unfold freq0, nfreq, freq, _freq_native_and_slice. rewrite Hfn.
  destruct (_passband self) as [pb |]; simpl.
  - split; [reflexivity |]. split; [discriminate |]. intros _ _. auto.
  - split; [reflexivity |]. split; [auto | discriminate].
Qed.

(** ** The frequency axis and the channels of a block *)

Section AxisAndBlock.

Context {T S : Type} `{DType T} `{Source T S}.

(** X9. When the native block has the channel count of the geometry,
    [freq] labels the channels of the block [get_next_block] returns: it has
    one entry per channel of that block, and entry [c] is the native
    frequency of native channel [lo + c], the channel its row [c] is taken
    from. *)
Theorem freq_labels_channels (self : DataSource) (s s' s'' : S)
    (t0 t0' : float) (blk out : ndarray T) (nt : nat) (sl : pyslice) :
  delivers self s t0 blk (_nfreq self) nt sl s' ->
  get_next_block self s = (Ok (t0', out), s'') ->
  let lo := fst (slice_bounds sl (_nfreq self)) in
  exists f ncol,
    freq self = Ok f /\
    nfreq self = Ok (length f) /\
    shape out = [length f; ncol] /\
    forall c, (c < length f)%nat ->
      f !! c = freq_native self !! (lo + c)%nat /\
      is_Some (f !! c).
Proof.
  intros Hd Hrun lo. pose proof Hd as (Hnat & Hw & fr & Hsl).
  pose proof (resolve_axis self fr sl Hsl) as ->.
  assert (Hfreq : freq self = Ok (getslice (freq_native self) sl))
    by (unfold freq; rewrite Hsl; reflexivity).
  pose proof (length_getslice (freq_native self) sl) as Hlen.
  rewrite length_freq_native in Hlen.
  assert (Hshape : exists ncol,
             shape out = [length (getslice (freq_native self) sl); ncol]).
  { rewrite Hlen.
    destruct (get_next_block_returns self s s' s'' t0 t0' blk out _ nt sl
                Hd Hrun) as [Hk | [Hk Hmod]].
    - destruct (getitem_wf2 blk _ nt sl Hw) as (d & Hget & [Hs _] & _).
      rewrite (get_next_block_after_slice self s s' t0 blk d _ sl
                 Hnat Hsl Hget), Hk in Hrun.
      simpl in Hrun. injection Hrun as _ <- _. eauto.
    - destruct (get_next_block_divisible self s s' t0 blk _ nt sl Hd Hk Hmod)
        as (_ & out' & _ & Hrun' & [Hs _] & _).
      rewrite Hrun' in Hrun. injection Hrun as _ <- _. eauto. }
  destruct Hshape as [ncol Hshape].
  exists (getslice (freq_native self) sl), ncol.
  split; [exact Hfreq |].
  split; [unfold nfreq; rewrite Hfreq; reflexivity |].
  split; [exact Hshape |].
  intros c Hc. split.
  - unfold lo. rewrite <- (length_freq_native self).
    apply lookup_getslice. rewrite length_freq_native, <- Hlen. exact Hc.
  - apply lookup_lt_is_Some. exact Hc.
Qed.

(** X10. A block with no more channels than the start of the selection
    gives no error: with a scrunch factor of one [get_next_block] returns a
    block without channels. *)
Theorem short_block_is_clamped (self : DataSource) (s s' : S)
    (t0 : float) (blk : ndarray T) (nf nt first last1 : nat) :
  delivers self s t0 blk nf nt
           {| start := Some first; stop := Some last1 |} s' ->
  (nf <= first)%nat ->
  _scrunch self = 1 ->
  get_next_block self s = (Ok (t0, {| shape := [0%nat; nt]; buf := [] |}), s').
Proof.
  intros (Hnat & Hw & fr & Hsl) Hnf Hk.
  set (sl := {| start := Some first; stop := Some last1 |}) in *.
  destruct (getitem_wf2 blk nf nt sl Hw) as (d & Hget & [Hs Hb] & _).
  rewrite (get_next_block_after_slice self s s' t0 blk d fr sl Hnat Hsl Hget), Hk.
  simpl. do 2 f_equal.
  unfold slice_bounds in Hs, Hb. simpl in Hs, Hb.
  replace (last1 `min` nf - first `min` nf)%nat with 0%nat in * by lia.
  destruct d as [sh b]; simpl in *. subst sh.
  destruct b; [reflexivity | discriminate].
Qed.

End AxisAndBlock.

(** ** Further properties of the search and its triggers *)

(** X11. No trigger comes out of [basic] when the signal-to-noise ratio
    is not strictly above the threshold: when it equals the threshold, and
    when either of them is NaN. *)
Theorem basic_no_trigger {D : Type}
    (sievers_find_peak : D -> float * (Z * Z) * Z)
    (data : D) (snr_threshold : option float)
    (snr : float) (sample : Z * Z) (duration : Z) :
  sievers_find_peak data = (snr, sample, duration) ->
  snr = default 5%float snr_threshold \/
  is_nan snr = true \/
  is_nan (default 5%float snr_threshold) = true ->
  basic sievers_find_peak data snr_threshold = [].
Proof.
  intros Hpeak Hedge. unfold basic. rewrite Hpeak.
  replace (gt snr (default 5%float snr_threshold)) with false; [reflexivity |].
  symmetry. unfold gt. destruct Hedge as [-> | [Hs | Ht]].
  - apply float_ltb_irrefl.
  - apply float_ltb_nan. right. exact Hs.
  - apply float_ltb_nan. left. exact Ht.
Qed.

(** X12. For a trigger centred inside its data, the window [plot_dm]
    shows lies inside the array, contains the centre, and spans at most 600
    rows and 1000 columns; away from the edges it is exactly 300 rows and
    500 columns to either side of the centre. The extent handed to the plot
    is the column bounds followed by the row bounds. *)
Theorem plot_dm_window {D : Type} (dm_data_shape : D -> Z * Z)
    (self : Trigger D) (nd nt : Z) :
  dm_data_shape (data self) = (nd, nt) ->
  0 <= fst (centre self) < nd ->
  0 <= snd (centre self) < nt ->
  let di := fst (centre self) in
  let ti := snd (centre self) in
  let w := plot_dm dm_data_shape self in
  (0 <= fst (rows w) <= di /\ di < snd (rows w) <= nd) /\
  (0 <= fst (cols w) <= ti /\ ti < snd (cols w) <= nt) /\
  snd (rows w) - fst (rows w) <= 600 /\
  snd (cols w) - fst (cols w) <= 1000 /\
  (300 <= di <= nd - 300 -> rows w = (di - 300, di + 300)) /\
  (500 <= ti <= nt - 500 -> cols w = (ti - 500, ti + 500)) /\
  extent w = [fst (cols w); snd (cols w); fst (rows w); snd (rows w)].
Proof.
  intros Hshape Hdi Hti di ti w.
  unfold w, plot_dm. fold di ti.
  replace (centre self) with (di, ti) by (unfold di, ti; destruct (centre self); reflexivity).
  rewrite Hshape. simpl.
  repeat split; try lia; intros; f_equal; lia.
Qed.

(** ** The further properties at work *)

Lemma get_next_block_empty_band_witness :
  get_next_block (config 3 (Some (5, 6)%float)) source48
    = (Raise IndexError, fetched48).
Proof.
  apply (get_next_block_empty_band (config 3 (Some (5, 6)%float))
           source48 fetched48 2%float block48 (5, 6)%float).
  - reflexivity.
  - reflexivity.
  - intros [| [| [| [| i]]]]; reflexivity.
Defined.

Lemma get_next_block_zero_scrunch_witness :
  get_next_block (config 0 None) source48
    = (Raise ZeroDivisionError, fetched48).
Proof.
  apply (get_next_block_zero_scrunch (config 0 None) source48 fetched48
           2%float block48 4 8 {| start := None; stop := None |}).
  - apply delivers48. eexists. vm_compute. reflexivity.
  - reflexivity.
Defined.

Lemma default_source_passes_through_witness :
  get_next_block (__init__ None None None None geometry4) source48
    = get_next_block_native source48.
Proof.
  apply (default_source_passes_through None None geometry4 source48).
  intros t0 blk s' [= _ <- _]. exists 4%nat, 8%nat. split; reflexivity.
Defined.


Lemma passband_out_of_order_witness :
  (forall i, qualifies (config 1 (Some (2.5, 0.5)%float))
                       (2.5, 0.5)%float i = false) /\
  _freq_native_and_slice (config 1 (Some (2.5, 0.5)%float))
    = Raise IndexError /\
  freq (config 1 (Some (2.5, 0.5)%float)) = Raise IndexError.
Proof.
  apply (passband_out_of_order (config 1 (Some (2.5, 0.5)%float))
           (2.5, 0.5)%float); reflexivity.
Defined.

Lemma freq_ends_in_band_witness :
  exists f f0 fl,
    freq (config 1 (Some (0.5, 2.5)%float)) = Ok f /\
    nfreq (config 1 (Some (0.5, 2.5)%float)) = Ok (length f) /\
    (1 <= length f <= 4)%nat /\
    freq0 (config 1 (Some (0.5, 2.5)%float)) = Ok f0 /\
    f !! 0%nat = Some f0 /\
    last f = Some fl /\
    (gt f0 0.5 && PrimFloat.ltb f0 2.5 = true) /\
    (gt fl 0.5 && PrimFloat.ltb fl 2.5 = true).
Proof.
  apply (freq_ends_in_band (config 1 (Some (0.5, 2.5)%float))
           (0.5, 2.5)%float).
  - reflexivity.
  - exists 2%nat. reflexivity.
Defined.

Lemma no_channels_witness :
  freq0 (__init__ None None None None
           {| geo_delta_t_native := 1%float; geo_delta_f := 1%float;
              geo_nfreq := 0; geo_freq0 := 0%float; geo_mjd := 0;
              geo_start_time := 0%float |})
    = Raise IndexError.
Proof.
  apply (no_channels (__init__ None None None None
           {| geo_delta_t_native := 1%float; geo_delta_f := 1%float;
              geo_nfreq := 0; geo_freq0 := 0%float; geo_mjd := 0;
              geo_start_time := 0%float |})).
  reflexivity.
Defined.

Lemma freq_labels_channels_witness :
  exists f ncol,
    freq (config 4 (Some (0.5, 2.5)%float)) = Ok f /\
    nfreq (config 4 (Some (0.5, 2.5)%float)) = Ok (length f) /\
    shape {| shape := [2; 2]%nat; buf := [11; 15; 21; 25] |}
      = [length f; ncol] /\
    forall c, (c < length f)%nat ->
      f !! c = freq_native (config 4 (Some (0.5, 2.5)%float)) !! (1 + c)%nat /\
      is_Some (f !! c).
Proof.
  apply (freq_labels_channels (config 4 (Some (0.5, 2.5)%float))
           source48 fetched48 fetched48 2%float 2.0015000000000001%float
           block48 {| shape := [2; 2]%nat; buf := [11; 15; 21; 25] |} 8
           {| start := Some 1%nat; stop := Some 3%nat |}).
  - apply (delivers48 4 (Some (0.5, 2.5)%float)). eexists. vm_compute.
    reflexivity.
  - vm_compute. reflexivity.
Defined.

Lemma short_block_is_clamped_witness :
  get_next_block (config 1 (Some (1.5, 2.5)%float))
    {| pending := [(0%float, {| shape := [2; 3]%nat;
                                buf := [1; 2; 3; 4; 5; 6] |})];
       fetched := 0 |}
  = (Ok (0%float, {| shape := [0; 3]%nat; buf := [] |}), fetched48).
Proof.
  apply (short_block_is_clamped (config 1 (Some (1.5, 2.5)%float))
           _ fetched48 0%float
           {| shape := [2; 3]%nat; buf := [1; 2; 3; 4; 5; 6] |}
           2 3 2 3).
  - split; [reflexivity |]. split; [split; reflexivity |].
    eexists. vm_compute. reflexivity.
  - simpl. lia.
  - reflexivity.
Defined.

Lemma basic_no_trigger_witness :
  basic scripted_peak block48 (Some 7.2%float) = [].
Proof.
  apply (basic_no_trigger scripted_peak block48 (Some 7.2%float)
           7.2%float (120, 4050) 3).
  - reflexivity.
  - left. reflexivity.
Defined.

Lemma plot_dm_window_witness :
  rows (plot_dm (fun _ : ndarray Z => (1000, 10000))
                (new block48 (120, 4050) None)) = (0, 420) /\
  cols (plot_dm (fun _ : ndarray Z => (1000, 10000))
                (new block48 (120, 4050) None)) = (3550, 4550).
Proof.
  destruct (plot_dm_window (fun _ : ndarray Z => (1000, 10000))
              (new block48 (120, 4050) None) 1000 10000)
    as (_ & _ & _ & _ & _ & Hcols & _).
  - reflexivity.
  - simpl. lia.
  - simpl. lia.
  - split; [reflexivity |]. apply Hcols. simpl. lia.
Defined.
